(** * Art Library backend ([main.py]): request validation, persistence
      contract and diagnostics

    A shallow embedding of the FastAPI route handlers of [main.py]:
    the rarity check of the two payload models, the create and list
    handlers of the collections ["character"] and ["item"], and the
    [/test] diagnostic route.

    The handlers talk to the document store only through the two
    functions imported from the [database] module, [create_document] and
    [get_documents].  They are an interface here (class [DocumentStore]);
    the handlers are defined once, over any implementation of it. *)

From Stdlib Require Import ZArith String Ascii.
From Stdlib Require Import Hexadecimal HexadecimalString HexadecimalN.
From Stdlib Require Import Decimal DecimalString.
From stdpp Require Import base option list gmap strings fin_maps.

Local Open Scope string_scope.
Local Open Scope Z_scope.

(** ** Values and documents *)

(** The store's native identifier ([bson.ObjectId]) as the number its
    bytes spell. *)
Definition ObjectId := N.

(** The values found in the documents of the two collections: the field
    types of the payload models, and the native identifier. *)
Inductive value :=
| VNone
| VStr (s : string)
| VInt (z : Z)
| VUrl (u : string)
| VList (l : list string)
| VStrDict (m : gmap string string)
| VIntDict (m : gmap string Z)
| VObjectId (o : ObjectId).

(** A Python [dict] with text keys. *)
Abbreviation document := (gmap string value).

Definition is_text (v : value) : Prop :=
  match v with VStr _ => True | _ => False end.

(** [str(ObjectId)]: lowercase hexadecimal digits, two per byte, padded
    with zeros to the 24 digits of a 12-byte identifier. *)
Definition hex_pad (w : nat) (d : Hexadecimal.uint) : Hexadecimal.uint :=
  Nat.iter (w - Hexadecimal.nb_digits d) Hexadecimal.D0 d.

Definition str_ObjectId (o : ObjectId) : string :=
  HexadecimalString.NilEmpty.string_of_uint (hex_pad 24 (N.to_hex_uint o)).

(** [str(int)]. *)
Definition str_int (z : Z) : string :=
  DecimalString.NilZero.string_of_int (Z.to_int z).

(** ** Exceptions and handler results *)

(** [HTTPException], [ImportError], and any other exception, kept with
    the text [str] gives for it. *)
Inductive exn :=
| HTTPException (status_code : Z) (detail : string)
| ImportError (msg : string)
| Exception (msg : string).

Inductive result (A : Type) :=
| Ok (a : A)
| Raise (e : exn).
Arguments Ok {A} a.
Arguments Raise {A} e.

(** What the framework answers: the returned value with status 200, an
    [HTTPException] with its own status code, any other exception as an
    internal server error. *)
Definition http_status {A} (r : result A) : Z :=
  match r with
  | Ok _ => 200
  | Raise (HTTPException c _) => c
  | Raise _ => 500
  end.

(** A handler runs against the store state [S]; a raised exception ends
    it and keeps the state reached so far. *)
Definition handler (S A : Type) : Type := S -> result A * S.

#[global] Instance handler_ret {S} : MRet (handler S) :=
  fun A (a : A) s => (Ok a, s).

#[global] Instance handler_bind {S} : MBind (handler S) :=
  fun A B (f : A -> handler S B) (m : handler S A) s =>
    match m s with
    | (Ok a, s') => f a s'
    | (Raise e, s') => (Raise e, s')
    end.

(** [raise e] *)
Definition raise {S A} (e : exn) : handler S A := fun s => (Raise e, s).

(** ** The store adapter interface ([from database import ...]) *)

Class DocumentStore (S : Type) := {
  create_document : string -> document -> handler S string;
  get_documents : string -> Z -> handler S (list document)
}.

(** ** Payload models *)

Definition RARITIES : gset string :=
  {[ "Common"; "Rare"; "Epic"; "Legendary"; "Champion" ]}.

Definition dump_opt {A} (f : A -> value) (o : option A) : value :=
  match o with Some a => f a | None => VNone end.

Module CharacterCreate.

Record t := {
  name : string;
  rarity : string;
  nation_code : option string;
  role : option string;
  bio : option string;
  image_url : option string;
  palette : option (gmap string string);
  stats : option (gmap string Z);
  tags : list string
}.

(** The model's constructor: the two required fields, every other
    field optional with the default of its declaration. *)
Definition init (name rarity : string)
    (nation_code role bio image_url : option string)
    (palette : option (gmap string string)) (stats : option (gmap string Z))
    (tags : option (list string)) : t :=
  {| name := name; rarity := rarity; nation_code := nation_code;
     role := role; bio := bio; image_url := image_url;
     palette := palette; stats := stats;
     tags := default [] tags |}.

Definition validate_rarity {S} (self : t) : handler S unit :=
  if bool_decide (rarity self ∉ RARITIES)
  then raise (HTTPException 400 "Invalid rarity")
  else mret tt.

Definition model_dump (self : t) : document :=
  <[ "name" := VStr (name self) ]>
  (<[ "rarity" := VStr (rarity self) ]>
  (<[ "nation_code" := dump_opt VStr (nation_code self) ]>
  (<[ "role" := dump_opt VStr (role self) ]>
  (<[ "bio" := dump_opt VStr (bio self) ]>
  (<[ "image_url" := dump_opt VUrl (image_url self) ]>
  (<[ "palette" := dump_opt VStrDict (palette self) ]>
  (<[ "stats" := dump_opt VIntDict (stats self) ]>
  (<[ "tags" := VList (tags self) ]> ∅)))))))).

End CharacterCreate.

Module ItemCreate.

Record t := {
  name : string;
  type : string;
  rarity : string;
  effect : option string;
  image_url : option string;
  tags : list string
}.

Definition init (name type rarity : string)
    (effect image_url : option string) (tags : option (list string)) : t :=
  {| name := name; type := type; rarity := rarity; effect := effect;
     image_url := image_url; tags := default [] tags |}.

Definition validate_rarity {S} (self : t) : handler S unit :=
  if bool_decide (rarity self ∉ RARITIES)
  then raise (HTTPException 400 "Invalid rarity")
  else mret tt.

Definition model_dump (self : t) : document :=
  <[ "name" := VStr (name self) ]>
  (<[ "type" := VStr (type self) ]>
  (<[ "rarity" := VStr (rarity self) ]>
  (<[ "effect" := dump_opt VStr (effect self) ]>
  (<[ "image_url" := dump_opt VUrl (image_url self) ]>
  (<[ "tags" := VList (tags self) ]> ∅))))).

End ItemCreate.

(** ** Route handlers of the art library *)

(** A response body: [{"id": _id}] or [{"items": docs}]. *)
Inductive body :=
| BodyId (id : string)
| BodyItems (items : list document).

Section Routes.

(** Python's [str] on a list or a dict (the [repr] of its elements, with
    its quoting rules).  No handler looks inside the text. *)
Context (repr_container : value -> string).
Context {S : Type} `{!DocumentStore S}.

(** [str(v)] *)
Definition py_str (v : value) : string :=
  match v with
  | VNone => "None"
  | VStr s => s
  | VInt z => str_int z
  | VUrl u => u
  | VObjectId o => str_ObjectId o
  | VList _ | VStrDict _ | VIntDict _ => repr_container v
  end.

(** The body of the loop of both list handlers:
    [if "_id" in d: d["id"] = str(d.pop("_id"))]. *)
Definition convert_id (d : document) : document :=
  match d !! "_id" with
  | Some v => <[ "id" := VStr (py_str v) ]> (delete "_id" d)
  | None => d
  end.

(** [GET /api/characters]; [limit] is [None] when the query leaves it
    out. *)
Definition list_characters (limit : option Z) : handler S body :=
  docs ← get_documents "character" (default 100 limit);
  mret (BodyItems (convert_id <$> docs)).

(** [POST /api/characters] *)
Definition create_character (payload : CharacterCreate.t) : handler S body :=
  _ ← CharacterCreate.validate_rarity payload;
  _id ← create_document "character" (CharacterCreate.model_dump payload);
  mret (BodyId _id).

(** [GET /api/items] *)
Definition list_items (limit : option Z) : handler S body :=
  docs ← get_documents "item" (default 100 limit);
  mret (BodyItems (convert_id <$> docs)).

(** [POST /api/items] *)
Definition create_item (payload : ItemCreate.t) : handler S body :=
  _ ← ItemCreate.validate_rarity payload;
  _id ← create_document "item" (ItemCreate.model_dump payload);
  mret (BodyId _id).

(** The two [POST] routes, by the payload model they bind. *)
Inductive payload :=
| Character (p : CharacterCreate.t)
| Item (p : ItemCreate.t).

Definition post (p : payload) : handler S body :=
  match p with
  | Character c => create_character c
  | Item i => create_item i
  end.

(** The two [GET] routes. *)
Inductive listing := Characters | Items.

Definition get (l : listing) (limit : option Z) : handler S body :=
  match l with
  | Characters => list_characters limit
  | Items => list_items limit
  end.

End Routes.

Definition payload_rarity (p : payload) : string :=
  match p with
  | Character c => CharacterCreate.rarity c
  | Item i => ItemCreate.rarity i
  end.

Definition payload_tags (p : payload) : list string :=
  match p with
  | Character c => CharacterCreate.tags c
  | Item i => ItemCreate.tags i
  end.

Definition payload_dump (p : payload) : document :=
  match p with
  | Character c => CharacterCreate.model_dump c
  | Item i => ItemCreate.model_dump i
  end.

(** The collection a route works on. *)
Definition payload_collection (p : payload) : string :=
  match p with
  | Character _ => "character"
  | Item _ => "item"
  end.

Definition listing_collection (l : listing) : string :=
  match l with
  | Characters => "character"
  | Items => "item"
  end.

Definition listing_of (p : payload) : listing :=
  match p with
  | Character _ => Characters
  | Item _ => Items
  end.

(** ** The document store *)

(** Modelled from the spec: the document store behind the [database]
    module, which is not part of the sources.  A connected database has
    its collections, each in insertion order, and the identifier the
    next insertion gets. *)
Record connection := {
  collections_of : gmap string (list document);
  next_id : ObjectId
}.

(** The process-wide connection; [None] when it was never opened. *)
Definition store := option connection.

Definition collection (c : string) (db : connection) : list document :=
  collections_of db !!! c.

(** Modelled from the spec: the insertion of one record at the end of
    the collection [c]; the next identifier moves on. *)
Definition insert_record (c : string) (record : document) (db : connection)
    : connection :=
  {| collections_of :=
       <[ c := (collection c db ++ [record])%list ]> (collections_of db);
     next_id := N.succ (next_id db) |}.

(** Modelled from the spec: [create_document] of the [database] module,
    which is not part of the sources.  It inserts [fields] as a new
    record of the named collection, under a fresh store-assigned
    identifier kept in the native field [_id], and returns that
    identifier as text; it fails when there is no connection. *)
Definition store_create_document (c : string) (fields : document)
    : handler store string :=
  fun st =>
    match st with
    | None => (Raise (Exception "Database not available"), st)
    | Some db =>
        let o := next_id db in
        (Ok (str_ObjectId o),
         Some (insert_record c (<[ "_id" := VObjectId o ]> fields) db))
    end.

(** Modelled from the spec: [get_documents] of the [database] module,
    which is not part of the sources.  It returns up to [limit] records
    of the named collection in storage order, each as stored; it fails
    when there is no connection. *)
Definition store_get_documents (c : string) (limit : Z)
    : handler store (list document) :=
  fun st =>
    match st with
    | None => (Raise (Exception "Database not available"), st)
    | Some db => (Ok (take (Z.to_nat limit) (collection c db)), st)
    end.

#[global] Instance store_adapter : DocumentStore store := {|
  create_document := store_create_document;
  get_documents := store_get_documents
|}.

Definition empty_database : connection :=
  {| collections_of := ∅; next_id := 0%N |}.

(** ** The diagnostic route [/test] *)

(** The database handle [db]: its attribute [name] when it has one, and
    what [list_collection_names()] does, the names or an exception given
    by its text. *)
Record Database := {
  name : option string;
  list_collection_names : string + list string
}.

(** What [from database import db] does. *)
Inductive import_outcome :=
| ModuleNotFound (msg : string)
| ImportRaises (msg : string)
| Imported (db : option Database).

(** The world the route looks at: the import and the two environment
    variables. *)
Record environment := {
  import_db : import_outcome;
  DATABASE_URL : option string;
  DATABASE_NAME : option string
}.

(** The dictionary [response]; its six keys are fixed. *)
Record response := {
  backend : string;
  database : string;
  database_url : option string;
  database_name : option string;
  connection_status : string;
  collections : list string
}.

Definition set_database (v : string) : handler response unit :=
  fun r => (Ok tt, {| backend := backend r; database := v;
                      database_url := database_url r;
                      database_name := database_name r;
                      connection_status := connection_status r;
                      collections := collections r |}).

Definition set_database_url (v : option string) : handler response unit :=
  fun r => (Ok tt, {| backend := backend r; database := database r;
                      database_url := v;
                      database_name := database_name r;
                      connection_status := connection_status r;
                      collections := collections r |}).

Definition set_database_name (v : option string) : handler response unit :=
  fun r => (Ok tt, {| backend := backend r; database := database r;
                      database_url := database_url r;
                      database_name := v;
                      connection_status := connection_status r;
                      collections := collections r |}).

Definition set_connection_status (v : string) : handler response unit :=
  fun r => (Ok tt, {| backend := backend r; database := database r;
                      database_url := database_url r;
                      database_name := database_name r;
                      connection_status := v;
                      collections := collections r |}).

Definition set_collections (v : list string) : handler response unit :=
  fun r => (Ok tt, {| backend := backend r; database := database r;
                      database_url := database_url r;
                      database_name := database_name r;
                      connection_status := connection_status r;
                      collections := v |}).

(** [try: body except ...: h]: [h e] is the clause that catches [e],
    [None] when no clause does. *)
Definition try_except {S A} (body : handler S A)
    (h : exn -> option (handler S A)) : handler S A :=
  fun s =>
    match body s with
    | (Ok a, s') => (Ok a, s')
    | (Raise e, s') =>
        match h e with
        | Some k => k s'
        | None => (Raise e, s')
        end
    end.

(** [str(e)] *)
Definition str_exn (e : exn) : string :=
  match e with
  | HTTPException c d => str_int c ++ ": " ++ d
  | ImportError msg => msg
  | Exception msg => msg
  end.

(** A Python [str] is held as the bytes of its UTF-8 text: a character
    is a leading byte with the continuation bytes (binary [10xxxxxx])
    that follow it. *)
Definition is_continuation (c : ascii) : bool :=
  match c with
  | Ascii _ _ _ _ _ _ b6 b7 => b7 && negb b6
  end.

(** [len(s)]: the number of characters. *)
Fixpoint str_len (s : string) : nat :=
  match s with
  | EmptyString => 0
  | String c s' =>
      if is_continuation c then str_len s' else S (str_len s')
  end.

(** [s[:n]]: the first [n] characters, each with all its bytes. *)
Fixpoint str_take (n : nat) (s : string) : string :=
  match s with
  | EmptyString => EmptyString
  | String c s' =>
      if is_continuation c then String c (str_take n s')
      else match n with
           | O => EmptyString
           | S n' => String c (str_take n' s')
           end
  end.

(** Truth value of what [os.getenv] returns. *)
Definition truthy (v : option string) : bool :=
  match v with
  | None => false
  | Some s => negb (String.eqb s EmptyString)
  end.

Definition do_import (env : environment) : handler response (option Database) :=
  match import_db env with
  | ModuleNotFound msg => raise (ImportError msg)
  | ImportRaises msg => raise (Exception msg)
  | Imported db => mret db
  end.

Definition call_list_collection_names (db : Database)
    : handler response (list string) :=
  match list_collection_names db with
  | inl msg => raise (Exception msg)
  | inr names => mret names
  end.

Definition initial_response : response :=
  {| backend := "✅ Running";
     database := "❌ Not Available";
     database_url := None;
     database_name := None;
     connection_status := "Not Connected";
     collections := [] |}.

Definition test_database_body (env : environment) : handler response unit :=
  _ ← try_except
        (db ← do_import env;
         match db with
         | Some db =>
             _ ← set_database "✅ Available";
             _ ← set_database_url (Some "✅ Configured");
             _ ← set_database_name
                   (Some (match name db with
                          | Some n => n
                          | None => "✅ Connected"
                          end));
             _ ← set_connection_status "Connected";
             try_except
               (collections ← call_list_collection_names db;
                _ ← set_collections (take 10 collections);
                set_database "✅ Connected & Working")
               (fun e => Some (set_database
                  ("⚠️  Connected but Error: " ++ str_take 50 (str_exn e))))
         | None => set_database "⚠️  Available but not initialized"
         end)
        (fun e =>
           match e with
           | ImportError _ =>
               Some (set_database "❌ Database module not found (run enable-database first)")
           | _ => Some (set_database ("❌ Error: " ++ str_take 50 (str_exn e)))
           end);
  _ ← set_database_url
        (Some (if truthy (DATABASE_URL env) then "✅ Set" else "❌ Not Set"));
  set_database_name
    (Some (if truthy (DATABASE_NAME env) then "✅ Set" else "❌ Not Set")).

(** [GET /test]: the handler returns the dictionary it filled. *)
Definition test_database (env : environment) : result response :=
  match test_database_body env initial_response with
  | (Ok _, r) => Ok r
  | (Raise e, _) => Raise e
  end.

(** ** Records and sample requests used in the statements *)

(** The record the store keeps for a payload, and the same record as a
    list endpoint returns it. *)
Definition stored_record (o : ObjectId) (p : payload) : document :=
  <[ "_id" := VObjectId o ]> (payload_dump p).

Definition listed_record (o : ObjectId) (p : payload) : document :=
  <[ "id" := VStr (str_ObjectId o) ]> (payload_dump p).

(** The item of the specification's example, the same item with a rarity
    outside the fixed set, and a character with two tags. *)
Definition sword : payload :=
  Item (ItemCreate.init "Sword" "Weapon" "Epic" None None None).

Definition mythic_sword : payload :=
  Item (ItemCreate.init "Sword" "Weapon" "Mythic" None None None).

Definition bard : CharacterCreate.t :=
  CharacterCreate.init "Bard" "Rare" (Some "CAN") None None None None None
    (Some ["a"; "b"]).

(** A rendering of containers for the requests below, none of which has
    a container as identifier. *)
Definition unused_repr (v : value) : string := "[]".

(** A connection whose collection ["character"] holds one record without
    native identifier. *)
Definition legacy_record : document := {[ "name" := VStr "Old" ]}.

Definition legacy_database : connection :=
  {| collections_of := {[ "character" := [legacy_record] ]}; next_id := 0%N |}.

(** A connection whose collection ["item"] already holds a hundred
    swords, with the identifiers 0 to 99. *)
Definition hundred_swords : list document :=
  (λ n, stored_record (N.of_nat n) sword) <$> seq 0 100.

Definition crowded_database : connection :=
  {| collections_of := {[ "item" := hundred_swords ]}; next_id := 100%N |}.

(** A working connection with twelve collections. *)
Definition twelve_names : list string :=
  ["c01"; "c02"; "c03"; "c04"; "c05"; "c06";
   "c07"; "c08"; "c09"; "c10"; "c11"; "c12"].

Definition working_db : Database :=
  {| name := Some "art"; list_collection_names := inr twelve_names |}.

Definition working_env : environment :=
  {| import_db := Imported (Some working_db);
     DATABASE_URL := Some "mongodb://localhost:27017";
     DATABASE_NAME := Some "art" |}.

(** A connection whose query fails with a message longer than fifty
    characters, and the message. *)
Definition long_message : string :=
  "connexion refusée par le serveur localhost:27017 après 30000 ms".



(** A stored record that has a field [id] of its own beside the native
    identifier. *)
Definition clashing_record : document :=
  <[ "_id" := VObjectId 7%N ]> (<[ "id" := VStr "mine" ]> legacy_record).

(** Every record of every collection carries the native identifier. *)
Definition native_ids (db : connection) : Prop :=
  ∀ c, Forall (λ d : document, is_Some (d !! "_id")) (collection c db).

(** * Properties *)

(** ** Text of a native identifier *)

Lemma hex_string_length (d : Hexadecimal.uint) :
  String.length (HexadecimalString.NilEmpty.string_of_uint d)
  = Hexadecimal.nb_digits d.
Proof. induction d; simpl; congruence. Qed.

Lemma hex_pad_digits (w : nat) (d : Hexadecimal.uint) :
  (w <= Hexadecimal.nb_digits (hex_pad w d))%nat.
Proof.
  unfold hex_pad. rewrite HexadecimalFacts.nb_digits_iter_D0. lia.
Qed.

Lemma hex_pad_value (w : nat) (d : Hexadecimal.uint) :
  N.of_hex_uint (hex_pad w d) = N.of_hex_uint d.
Proof.
  unfold hex_pad. generalize (w - Hexadecimal.nb_digits d)%nat as k.
  induction k as [|k IH]; [done|].
  rewrite <- IH. cbn [Nat.iter nat_rect].
  rewrite <- (HexadecimalN.Unsigned.of_uint_norm (Hexadecimal.D0 _)).
  rewrite HexadecimalFacts.unorm_D0.
  by rewrite HexadecimalN.Unsigned.of_uint_norm.
Qed.

(** The text has at least the 24 digits of a 12-byte identifier. *)
Lemma str_ObjectId_length (o : ObjectId) :
  (24 <= String.length (str_ObjectId o))%nat.
Proof. unfold str_ObjectId. rewrite hex_string_length. apply hex_pad_digits. Qed.

Lemma str_ObjectId_nonempty (o : ObjectId) : str_ObjectId o ≠ EmptyString.
Proof.
  intros E. pose proof (str_ObjectId_length o) as H.
  rewrite E in H. simpl in H. lia.
Qed.

(** Two identifiers with the same text are the same identifier. *)
Lemma str_ObjectId_inj (o1 o2 : ObjectId) :
  str_ObjectId o1 = str_ObjectId o2 → o1 = o2.
Proof.
  unfold str_ObjectId. intros E.
  apply (f_equal HexadecimalString.NilEmpty.uint_of_string) in E.
  rewrite !HexadecimalString.NilEmpty.usu in E.
  injection E as E.
  apply (f_equal N.of_hex_uint) in E.
  rewrite !hex_pad_value, !HexadecimalN.Unsigned.of_to in E.
  exact E.
Qed.

(** ** The handlers over any store adapter *)

Section AnyStore.

Context (repr_container : value -> string).
Context {S : Type} `{!DocumentStore S}.

Lemma bind_ok {A B} (m : handler S A) (f : A -> handler S B) st a st' :
  m st = (Ok a, st') → (m ≫= f) st = f a st'.
Proof. intros E. unfold mbind, handler_bind. by rewrite E. Qed.

Lemma bind_raise {A B} (m : handler S A) (f : A -> handler S B) st e st' :
  m st = (Raise e, st') → (m ≫= f) st = (Raise e, st').
Proof. intros E. unfold mbind, handler_bind. by rewrite E. Qed.

Lemma validate_character_invalid (c : CharacterCreate.t) (st : S) :
  CharacterCreate.rarity c ∉ RARITIES →
  CharacterCreate.validate_rarity c st
  = (Raise (HTTPException 400 "Invalid rarity"), st).
Proof.
  intros H. unfold CharacterCreate.validate_rarity.
  by rewrite bool_decide_eq_true_2.
Qed.

Lemma validate_item_invalid (i : ItemCreate.t) (st : S) :
  ItemCreate.rarity i ∉ RARITIES →
  ItemCreate.validate_rarity i st
  = (Raise (HTTPException 400 "Invalid rarity"), st).
Proof.
  intros H. unfold ItemCreate.validate_rarity.
  by rewrite bool_decide_eq_true_2.
Qed.

Lemma validate_character_valid (c : CharacterCreate.t) (st : S) :
  CharacterCreate.rarity c ∈ RARITIES →
  CharacterCreate.validate_rarity c st = (Ok tt, st).
Proof.
  intros H. unfold CharacterCreate.validate_rarity.
  rewrite bool_decide_eq_false_2; [done | by intros N; apply N].
Qed.

Lemma validate_item_valid (i : ItemCreate.t) (st : S) :
  ItemCreate.rarity i ∈ RARITIES →
  ItemCreate.validate_rarity i st = (Ok tt, st).
Proof.
  intros H. unfold ItemCreate.validate_rarity.
  rewrite bool_decide_eq_false_2; [done | by intros N; apply N].
Qed.

(** A valid payload reaches the adapter: the handler is one call of
    [create_document] on the payload's dump, its result wrapped under
    the key [id]. *)
Lemma post_valid (p : payload) (st : S) :
  payload_rarity p ∈ RARITIES →
  post p st
  = match create_document (payload_collection p) (payload_dump p) st with
    | (Ok _id, st') => (Ok (BodyId _id), st')
    | (Raise e, st') => (Raise e, st')
    end.
Proof.
  intros H. destruct p as [c|i]; simpl in *.
  - unfold create_character.
    erewrite bind_ok by (by apply validate_character_valid).
    unfold mbind, handler_bind.
    by destruct (create_document _ _ st) as [[?|?] ?].
  - unfold create_item.
    erewrite bind_ok by (by apply validate_item_valid).
    unfold mbind, handler_bind.
    by destruct (create_document _ _ st) as [[?|?] ?].
Qed.

(** A rarity outside the set stops the handler at the check. *)
Lemma post_invalid (p : payload) (st : S) :
  payload_rarity p ∉ RARITIES →
  post p st = (Raise (HTTPException 400 "Invalid rarity"), st).
Proof.
  intros H. destruct p as [c|i]; simpl in *.
  - unfold create_character. by apply bind_raise, validate_character_invalid.
  - unfold create_item. by apply bind_raise, validate_item_invalid.
Qed.

(** Both list handlers: what the adapter returned, each record through
    [convert_id]. *)
Lemma get_unfold (l : listing) (limit : option Z) (st : S) :
  get repr_container l limit st
  = match get_documents (listing_collection l) (default 100 limit) st with
    | (Ok docs, st') => (Ok (BodyItems (convert_id repr_container <$> docs)), st')
    | (Raise e, st') => (Raise e, st')
    end.
Proof.
  destruct l; simpl; unfold list_characters, list_items, mbind, handler_bind;
    by destruct (get_documents _ _ st) as [[?|?] ?].
Qed.

Lemma convert_id_native (d : document) (v : value) :
  d !! "_id" = Some v →
  convert_id repr_container d
  = <[ "id" := VStr (py_str repr_container v) ]> (delete "_id" d).
Proof. intros E. unfold convert_id. by rewrite E. Qed.

Lemma convert_id_absent (d : document) :
  d !! "_id" = None → convert_id repr_container d = d.
Proof. intros E. unfold convert_id. by rewrite E. Qed.

(** No converted record keeps the native field. *)
Lemma convert_id_hides_native (d : document) :
  convert_id repr_container d !! "_id" = None.
Proof.
  unfold convert_id. destruct (d !! "_id") as [v|] eqn:E; [|done].
  rewrite lookup_insert_ne by done. apply lookup_delete_eq.
Qed.

(** C1: a Character or Item payload whose rarity is outside the fixed
    set {Common, Rare, Epic, Legendary, Champion} is rejected with the
    client error 400 "Invalid rarity", raised by the handler itself, and
    the store is left as it was whatever the adapter is: the handler
    stops before [create_document]. *)
Theorem invalid_rarity_rejected (p : payload) (st : S) :
  payload_rarity p ∉ RARITIES →
  post p st = (Raise (HTTPException 400 "Invalid rarity"), st)
  ∧ http_status (post p st).1 = 400.
Proof.
  intros H.
  assert (post p st = (Raise (HTTPException 400 "Invalid rarity"), st)) as E.
  { destruct p as [c|i]; simpl in *.
    - unfold create_character.
      by apply bind_raise, validate_character_invalid.
    - unfold create_item.
      by apply bind_raise, validate_item_invalid. }
  by rewrite E.
Qed.

(** C3: the records [get_documents] returns carry the native field
    [_id], each of them; then every record a list endpoint returns is
    the stored one with [_id] removed and the field [id] set to the text
    of the same identifier, its other fields as they were.  No returned
    record has a field [_id], and each has exactly one identifier field,
    [id], holding text. *)
Theorem list_replaces_native_id (l : listing) (limit : option Z)
    (st st' : S) (docs : list document) :
  get_documents (listing_collection l) (default 100 limit) st = (Ok docs, st') →
  Forall (λ d : document, is_Some (d !! "_id")) docs →
  ∃ items,
    get repr_container l limit st = (Ok (BodyItems items), st')
    ∧ Forall2 (λ d r : document,
                 ∃ v, d !! "_id" = Some v
                      ∧ r = <[ "id" := VStr (py_str repr_container v) ]>
                              (delete "_id" d)
                      ∧ r !! "id" = Some (VStr (py_str repr_container v))
                      ∧ ∀ k, k ≠ "id" → k ≠ "_id" → r !! k = d !! k)
        docs items
    ∧ Forall (λ r : document,
                r !! "_id" = None
                ∧ (∃ t, r !! "id" = Some (VStr t))
                ∧ ∀ k, k = "_id" ∨ k = "id" → (is_Some (r !! k) ↔ k = "id"))
        items.
Proof.
  intros E Hid. exists (convert_id repr_container <$> docs).
  rewrite get_unfold, E. split; [done|]. clear E. split.
  - induction Hid as [|d ds [v Hv] _ IH]; [constructor|].
    rewrite fmap_cons. constructor; [|exact IH].
    exists v. split; [done|]. rewrite (convert_id_native d v Hv).
    split; [done|]. split; [apply lookup_insert_eq|].
    intros k Hk Hk'. rewrite lookup_insert_ne by done.
    by rewrite lookup_delete_ne.
  - induction Hid as [|d ds [v Hv] _ IH]; [constructor|].
    rewrite fmap_cons. constructor; [|exact IH].
    assert (convert_id repr_container d !! "id"
            = Some (VStr (py_str repr_container v))) as Hi.
    { rewrite (convert_id_native d v Hv). apply lookup_insert_eq. }
    split; [apply convert_id_hides_native|]. split; [by eexists|].
    intros k [->| ->].
    + rewrite convert_id_hides_native. split; [by intros [? ?]|done].
    + rewrite Hi. split; [done|by eexists].
Qed.

(** C10: the conversion depends on the native field being there: a
    record the adapter returns without a field [_id] is returned by the
    list endpoints as it is, at the same position, with no field [id]
    added and no field changed. *)
Theorem list_keeps_record_without_native_id (l : listing) (limit : option Z)
    (st st' : S) (docs : list document) :
  get_documents (listing_collection l) (default 100 limit) st = (Ok docs, st') →
  ∃ items,
    get repr_container l limit st = (Ok (BodyItems items), st')
    ∧ length items = length docs
    ∧ ∀ (i : nat) (d : document),
        docs !! i = Some d → d !! "_id" = None →
        items !! i = Some d ∧ (d !! "id" = None → ∀ r, items !! i = Some r → r !! "id" = None).
Proof.
  intros E. exists (convert_id repr_container <$> docs).
  rewrite get_unfold, E. split; [done|]. split; [apply length_fmap|].
  intros i d Hd Hno.
  assert ((convert_id repr_container <$> docs) !! i = Some d) as Hi.
  { rewrite list_lookup_fmap, Hd. simpl. by rewrite convert_id_absent. }
  split; [done|]. intros Hn r Hr. congruence.
Qed.

End AnyStore.

(** ** The handlers over the document store *)

Lemma collection_insert_record (c : string) (r : document) (db : connection) :
  collection c (insert_record c r db) = (collection c db ++ [r])%list.
Proof. unfold collection, insert_record. simpl. apply lookup_total_insert_eq. Qed.

Lemma collection_insert_record_ne (c c' : string) (r : document) (db : connection) :
  c ≠ c' → collection c' (insert_record c r db) = collection c' db.
Proof.
  intros Hne. unfold collection, insert_record. simpl.
  by apply lookup_total_insert_ne.
Qed.

Lemma listing_of_collection (p : payload) :
  listing_collection (listing_of p) = payload_collection p.
Proof. by destruct p. Qed.

Lemma payload_dump_native (p : payload) : payload_dump p !! "_id" = None.
Proof. destruct p; simpl; by simplify_map_eq. Qed.

Lemma payload_dump_tags (p : payload) :
  payload_dump p !! "tags" = Some (VList (payload_tags p)).
Proof. destruct p; simpl; by simplify_map_eq. Qed.

Lemma convert_stored_record repr (o : ObjectId) (p : payload) :
  convert_id repr (stored_record o p) = listed_record o p.
Proof.
  unfold stored_record, listed_record.
  rewrite (convert_id_native repr _ (VObjectId o)) by apply lookup_insert_eq.
  simpl. rewrite delete_insert_eq, delete_id by apply payload_dump_native.
  done.
Qed.

Lemma listed_record_id (o : ObjectId) (p : payload) :
  listed_record o p !! "id" = Some (VStr (str_ObjectId o)).
Proof. apply lookup_insert_eq. Qed.

Lemma listed_record_tags (o : ObjectId) (p : payload) :
  listed_record o p !! "tags" = Some (VList (payload_tags p)).
Proof.
  unfold listed_record. rewrite lookup_insert_ne by done.
  apply payload_dump_tags.
Qed.

Lemma stored_record_tags (o : ObjectId) (p : payload) :
  stored_record o p !! "tags" = Some (VList (payload_tags p)).
Proof.
  unfold stored_record. rewrite lookup_insert_ne by done.
  apply payload_dump_tags.
Qed.

(** A valid payload on an open connection: the new record goes to the
    end of its collection and its identifier comes back as text. *)
Lemma store_post (p : payload) (db : connection) :
  payload_rarity p ∈ RARITIES →
  post p (Some db)
  = (Ok (BodyId (str_ObjectId (next_id db))),
     Some (insert_record (payload_collection p) (stored_record (next_id db) p) db)).
Proof. intros H. by rewrite post_valid. Qed.

Lemma store_get repr (l : listing) (limit : option Z) (db : connection) :
  get repr l limit (Some db)
  = (Ok (BodyItems (convert_id repr <$>
           take (Z.to_nat (default 100 limit)) (collection (listing_collection l) db))),
     Some db).
Proof. by rewrite get_unfold. Qed.

(** After a creation, a listing that reaches the position of the new
    record returns it there, converted. *)
Lemma store_get_after_post repr (p : payload) (db : connection) (limit : option Z) :
  let c := payload_collection p in
  let db' := insert_record c (stored_record (next_id db) p) db in
  (length (collection c db) < Z.to_nat (default 100%Z limit))%nat →
  ∃ items,
    get repr (listing_of p) limit (Some db') = (Ok (BodyItems items), Some db')
    ∧ items !! length (collection c db) = Some (listed_record (next_id db) p).
Proof.
  intros c db' Hlt. eexists. split; [apply store_get|].
  rewrite list_lookup_fmap, listing_of_collection.
  subst db'. rewrite collection_insert_record.
  rewrite lookup_take_lt by done.
  rewrite lookup_app_r by done. rewrite Nat.sub_diag. simpl.
  by rewrite convert_stored_record.
Qed.

(** The records of the store carry the native identifier: the empty
    store has none without it, and no [POST] adds one, whatever the
    payload. *)
Lemma native_ids_empty : native_ids empty_database.
Proof.
  intros c. unfold collection, empty_database. simpl.
  rewrite lookup_total_empty. constructor.
Qed.

Lemma native_ids_post (p : payload) (db : connection) :
  native_ids db →
  ∃ r db', post p (Some db) = (r, Some db') ∧ native_ids db'.
Proof.
  intros Hinv. destruct (decide (payload_rarity p ∈ RARITIES)) as [Hr|Hr].
  - eexists _, _. split; [exact (store_post p db Hr)|].
    intros c. destruct (decide (payload_collection p = c)) as [<-|Hne].
    + rewrite collection_insert_record. apply Forall_app. split; [apply Hinv|].
      repeat constructor. unfold stored_record. rewrite lookup_insert_eq.
      by eexists.
    + rewrite collection_insert_record_ne by done. apply Hinv.
  - eexists _, db. split; [|exact Hinv].
    exact (post_invalid p (Some db) Hr).
Qed.

(** What [get_documents] returns from such a store meets the condition
    of C3. *)
Lemma native_ids_get_documents (c : string) (limit : Z) (db : connection) :
  native_ids db →
  ∃ docs, get_documents c limit (Some db) = (Ok docs, Some db)
          ∧ Forall (λ d : document, is_Some (d !! "_id")) docs.
Proof.
  intros Hinv. eexists. split; [reflexivity|].
  apply Forall_take, Hinv.
Qed.

(** C2, as the handlers have it: on an open connection, a Character or
    Item payload with a rarity of the fixed set is persisted, its dump
    under a fresh native identifier at the end of its collection; the
    handler answers [{"id": t}], [t] the non-empty text of that
    identifier; and a later list call on the same collection whose limit
    is above the number of records the collection held before returns
    the record with [t] under the field [id]. *)
Theorem create_then_list repr (p : payload) (db : connection) (limit : option Z) :
  payload_rarity p ∈ RARITIES →
  (length (collection (payload_collection p) db)
   < Z.to_nat (default 100%Z limit))%nat →
  ∃ t db' items,
    post p (Some db) = (Ok (BodyId t), Some db')
    ∧ http_status (post p (Some db)).1 = 200
    ∧ t = str_ObjectId (next_id db)
    ∧ t ≠ EmptyString
    ∧ collection (payload_collection p) db'
      = (collection (payload_collection p) db
         ++ [<[ "_id" := VObjectId (next_id db) ]> (payload_dump p)])%list
    ∧ get repr (listing_of p) limit (Some db') = (Ok (BodyItems items), Some db')
    ∧ <[ "id" := VStr t ]> (payload_dump p) ∈ items.
Proof.
  intros Hr Hlt.
  destruct (store_get_after_post repr p db limit Hlt) as (items & Hget & Hi).
  eexists _, _, items. rewrite (store_post p db Hr).
  split; [reflexivity|]. split; [done|]. split; [reflexivity|].
  split; [apply str_ObjectId_nonempty|].
  split; [apply collection_insert_record|].
  split; [exact Hget|].
  apply list_elem_of_lookup. eexists. exact Hi.
Qed.

(** C5: on an open connection, a list endpoint returns as many records
    as the collection holds and at most [limit] of them, at most 100
    when the query gives no limit; with [limit=0] it answers the empty
    sequence, with status 200. *)
Theorem limit_bounds_listing repr (l : listing) (n : Z) (db : connection) :
  (∃ items,
      get repr l (Some n) (Some db) = (Ok (BodyItems items), Some db)
      ∧ length items
        = Nat.min (Z.to_nat n) (length (collection (listing_collection l) db))
      ∧ (length items <= Z.to_nat n)%nat)
  ∧ (∃ items,
      get repr l None (Some db) = (Ok (BodyItems items), Some db)
      ∧ (length items <= 100)%nat)
  ∧ get repr l (Some 0) (Some db) = (Ok (BodyItems []), Some db)
  ∧ http_status (get repr l (Some 0) (Some db)).1 = 200.
Proof.
  rewrite !store_get. simpl default. repeat split.
  - eexists. split; [reflexivity|].
    rewrite length_fmap, length_take. split; lia.
  - eexists. split; [reflexivity|].
    rewrite length_fmap, length_take. lia.
Qed.

(** The round trip of the tags of any Character payload: the record
    sits at the end of the collection, and a listing that has a record
    at that position has this one, converted. *)
Lemma character_tags_round_trip repr (c : CharacterCreate.t) (db : connection)
    (limit : option Z) :
  CharacterCreate.rarity c ∈ RARITIES →
  ∃ t db' items,
    create_character c (Some db) = (Ok (BodyId t), Some db')
    ∧ list_characters repr limit (Some db') = (Ok (BodyItems items), Some db')
    ∧ (∀ r, items !! length (collection "character" db) = Some r →
            r !! "id" = Some (VStr t)
            ∧ r !! "tags" = Some (VList (CharacterCreate.tags c)))
    ∧ ((length (collection "character" db)
        < Z.to_nat (default 100%Z limit))%nat →
       is_Some (items !! length (collection "character" db))).
Proof.
  intros Hr.
  eexists _, _, _.
  split; [exact (store_post (Character c) db Hr)|].
  split; [exact (store_get repr Characters limit _)|].
  simpl. rewrite collection_insert_record.
  set (old := collection "character" db).
  split.
  - intros r Hi. rewrite list_lookup_fmap in Hi.
    destruct (take _ _ !! length old) as [d|] eqn:Hd; [|done].
    apply lookup_take_Some in Hd as [Hd _].
    rewrite lookup_app_r, Nat.sub_diag in Hd by done.
    simpl in Hd, Hi. injection Hd as <-. injection Hi as <-.
    rewrite convert_stored_record, listed_record_id.
    by rewrite (listed_record_tags _ (Character c)).
  - intros Hlt. rewrite list_lookup_fmap, lookup_take_lt by done.
    rewrite lookup_app_r, Nat.sub_diag by done. simpl. by eexists.
Qed.

(** C6: on an open connection, creating a Character whose tags are
    ["a","b"] and then retrieving that record through the list endpoint
    gives a record with the returned identifier and with tags
    ["a","b"], in that order; the listing reaches it whenever its limit
    is above the number of older records. *)
Theorem tags_round_trip repr (c : CharacterCreate.t) (db : connection)
    (limit : option Z) :
  CharacterCreate.tags c = ["a"; "b"] →
  CharacterCreate.rarity c ∈ RARITIES →
  ∃ t db' items,
    create_character c (Some db) = (Ok (BodyId t), Some db')
    ∧ list_characters repr limit (Some db') = (Ok (BodyItems items), Some db')
    ∧ (∀ r, items !! length (collection "character" db) = Some r →
            r !! "id" = Some (VStr t)
            ∧ r !! "tags" = Some (VList ["a"; "b"]))
    ∧ ((length (collection "character" db)
        < Z.to_nat (default 100%Z limit))%nat →
       is_Some (items !! length (collection "character" db))).
Proof.
  intros Ht Hr. rewrite <- Ht.
  by apply character_tags_round_trip.
Qed.

Lemma stored_record_inj (o1 o2 : ObjectId) (p : payload) :
  stored_record o1 p = stored_record o2 p → o1 = o2.
Proof.
  intros E. apply (f_equal (λ d : document, d !! "_id")) in E.
  unfold stored_record in E. rewrite !lookup_insert_eq in E. congruence.
Qed.

(** C7: a valid payload makes the handler call [create_document] once,
    whatever the adapter; on an open connection every such call adds a
    record, so that posting the same payload twice leaves two records,
    one after the other, with different identifiers. *)
Theorem post_creates_a_record_each_time (p : payload) (db : connection) :
  payload_rarity p ∈ RARITIES →
  (∀ S (adapter : DocumentStore S) (st : S),
      post p st
      = match create_document (payload_collection p) (payload_dump p) st with
        | (Ok _id, st') => (Ok (BodyId _id), st')
        | (Raise e, st') => (Raise e, st')
        end)
  ∧ ∃ t1 t2 db1 db2 r1 r2,
      post p (Some db) = (Ok (BodyId t1), Some db1)
      ∧ post p (Some db1) = (Ok (BodyId t2), Some db2)
      ∧ collection (payload_collection p) db1
        = (collection (payload_collection p) db ++ [r1])%list
      ∧ collection (payload_collection p) db2
        = (collection (payload_collection p) db ++ [r1; r2])%list
      ∧ r1 !! "_id" = Some (VObjectId (next_id db))
      ∧ r2 !! "_id" = Some (VObjectId (N.succ (next_id db)))
      ∧ r1 ≠ r2
      ∧ t1 ≠ t2.
Proof.
  intros Hr. split.
  { intros S adapter st. by apply post_valid. }
  eexists _, _, _, _, _, _.
  split; [exact (store_post p db Hr)|].
  split; [exact (store_post p _ Hr)|].
  split; [apply collection_insert_record|].
  split.
  { rewrite !collection_insert_record, <- app_assoc. reflexivity. }
  split; [apply lookup_insert_eq|].
  split; [apply lookup_insert_eq|].
  split.
  - simpl. intros E. apply stored_record_inj in E. lia.
  - simpl. intros E. apply str_ObjectId_inj in E. lia.
Qed.

(** C9: on an open connection, a valid Character or Item payload built
    without the field [tags] is persisted with [tags] equal to the empty
    sequence, and a list call that reaches the record returns it with
    [tags] equal to the empty sequence. *)
Theorem omitted_tags_default_empty repr (p : payload) (db : connection)
    (limit : option Z)
    (name rarity : string) (nation_code role bio image_url : option string)
    (palette : option (gmap string string)) (stats : option (gmap string Z))
    (iname itype irarity : string) (effect iimage_url : option string) :
  p = Character (CharacterCreate.init name rarity nation_code role bio
                   image_url palette stats None)
  ∨ p = Item (ItemCreate.init iname itype irarity effect iimage_url None) →
  payload_rarity p ∈ RARITIES →
  ∃ t db' stored items,
    post p (Some db) = (Ok (BodyId t), Some db')
    ∧ last (collection (payload_collection p) db') = Some stored
    ∧ stored !! "tags" = Some (VList [])
    ∧ get repr (listing_of p) limit (Some db') = (Ok (BodyItems items), Some db')
    ∧ (∀ r, items !! length (collection (payload_collection p) db) = Some r →
            r !! "id" = Some (VStr t) ∧ r !! "tags" = Some (VList []))
    ∧ ((length (collection (payload_collection p) db)
        < Z.to_nat (default 100%Z limit))%nat →
       is_Some (items !! length (collection (payload_collection p) db))).
Proof.
  intros Hp Hr.
  assert (payload_tags p = []) as Htags by (by destruct Hp as [-> | ->]).
  eexists _, _, (stored_record (next_id db) p), _.
  split; [exact (store_post p db Hr)|].
  split; [by rewrite collection_insert_record, last_snoc|].
  split; [by rewrite stored_record_tags, Htags|].
  split; [apply store_get|].
  rewrite listing_of_collection, collection_insert_record.
  set (old := collection (payload_collection p) db).
  split.
  - intros r Hi. rewrite list_lookup_fmap in Hi.
    destruct (take _ _ !! length old) as [d|] eqn:Hd; [|done].
    apply lookup_take_Some in Hd as [Hd _].
    rewrite lookup_app_r, Nat.sub_diag in Hd by done.
    simpl in Hd, Hi. injection Hd as <-. injection Hi as <-.
    rewrite convert_stored_record, listed_record_id, listed_record_tags, Htags.
    done.
  - intros Hlt. rewrite list_lookup_fmap, lookup_take_lt by done.
    rewrite lookup_app_r, Nat.sub_diag by done. simpl. by eexists.
Qed.

(** ** The diagnostic route *)

(** C4: [/test] answers with status 200 in every state of the store:
    module absent, import failing, connection not opened, connection
    open with a failing query, connection working, and whatever the two
    environment variables are.  Each failure is a line of text in the
    field [database] of the body. *)
Theorem test_database_never_fails (env : environment) :
  ∃ r,
    test_database env = Ok r
    ∧ http_status (test_database env) = 200
    ∧ backend r = "✅ Running"
    ∧ database r
      = match import_db env with
        | ModuleNotFound _ => "❌ Database module not found (run enable-database first)"
        | ImportRaises msg => "❌ Error: " ++ str_take 50 msg
        | Imported None => "⚠️  Available but not initialized"
        | Imported (Some db) =>
            match list_collection_names db with
            | inl msg => "⚠️  Connected but Error: " ++ str_take 50 msg
            | inr _ => "✅ Connected & Working"
            end
        end
    ∧ database_url r
      = Some (if truthy (DATABASE_URL env) then "✅ Set" else "❌ Not Set")
    ∧ database_name r
      = Some (if truthy (DATABASE_NAME env) then "✅ Set" else "❌ Not Set").
Proof.
  destruct env as [imp url nm].
  destruct imp as [msg|msg|[[n [msg|names]]|]];
    (eexists; split; [lazy; reflexivity|]; repeat split; lazy; reflexivity).
Qed.

(** C8: when the connection is open and lists its [n] collection names,
    the field [collections] of the [/test] body holds the first
    [min n 10] of them, in order. *)
Theorem test_database_first_ten_collections (env : environment)
    (db : Database) (names : list string) :
  import_db env = Imported (Some db) →
  list_collection_names db = inr names →
  ∃ r,
    test_database env = Ok r
    ∧ collections r = take 10 names
    ∧ length (collections r) = Nat.min (length names) 10
    ∧ collections r `prefix_of` names.
Proof.
  intros Hi Hn. destruct env as [imp url nm]. simpl in Hi. subst imp.
  destruct db as [n l]. simpl in Hn. subst l.
  eexists. split; [lazy; reflexivity|].
  change (take 10 names = take 10 names
          ∧ length (take 10 names) = Nat.min (length names) 10
          ∧ take 10 names `prefix_of` names).
  split; [reflexivity|]. split; [rewrite length_take; lia|].
  exists (drop 10 names). by rewrite take_drop.
Qed.

(** In no state does the body list more than ten collections. *)
Lemma test_database_at_most_ten (env : environment) (r : response) :
  test_database env = Ok r → (length (collections r) <= 10)%nat.
Proof.
  destruct env as [imp url nm].
  destruct imp as [msg|msg|[[n [msg|names]]|]]; lazy; intros [= <-];
    cbn [collections length]; try lia.
  change (length (take 10 names) <= 10)%nat. rewrite length_take. lia.
Qed.

(** ** Instances on concrete requests *)

Lemma epic_in_RARITIES : "Epic" ∈ RARITIES.
Proof. apply (bool_decide_unpack _). vm_compute. exact I. Defined.

Lemma rare_in_RARITIES : "Rare" ∈ RARITIES.
Proof. apply (bool_decide_unpack _). vm_compute. exact I. Defined.

Lemma mythic_not_in_RARITIES : "Mythic" ∉ RARITIES.
Proof. apply (bool_decide_unpack _). vm_compute. exact I. Defined.

Lemma invalid_rarity_rejected_witness :
  (payload_rarity mythic_sword ∉ RARITIES)
  ∧ post mythic_sword (Some empty_database)
    = (Raise (HTTPException 400 "Invalid rarity"), Some empty_database)
  ∧ http_status (post mythic_sword (Some empty_database)).1 = 400.
Proof.
  split; [exact mythic_not_in_RARITIES|].
  exact (invalid_rarity_rejected mythic_sword (Some empty_database)
           mythic_not_in_RARITIES).
Defined.

Lemma list_replaces_native_id_witness :
  get_documents (listing_collection Items) (default 100 None)
    (Some (insert_record "item" (stored_record 0%N sword) empty_database))
  = (Ok [stored_record 0%N sword],
     Some (insert_record "item" (stored_record 0%N sword) empty_database))
  ∧ Forall (λ d : document, is_Some (d !! "_id")) [stored_record 0%N sword]
  ∧ ∃ items,
      get unused_repr Items None
        (Some (insert_record "item" (stored_record 0%N sword) empty_database))
      = (Ok (BodyItems items),
         Some (insert_record "item" (stored_record 0%N sword) empty_database))
      ∧ Forall2 (λ d r : document,
                   ∃ v, d !! "_id" = Some v
                        ∧ r = <[ "id" := VStr (py_str unused_repr v) ]>
                                (delete "_id" d)
                        ∧ r !! "id" = Some (VStr (py_str unused_repr v))
                        ∧ ∀ k, k ≠ "id" → k ≠ "_id" → r !! k = d !! k)
          [stored_record 0%N sword] items
      ∧ Forall (λ r : document,
                  r !! "_id" = None
                  ∧ (∃ t, r !! "id" = Some (VStr t))
                  ∧ ∀ k, k = "_id" ∨ k = "id" → (is_Some (r !! k) ↔ k = "id"))
          items.
Proof.
  assert (get_documents (listing_collection Items) (default 100 None)
            (Some (insert_record "item" (stored_record 0%N sword) empty_database))
          = (Ok [stored_record 0%N sword],
             Some (insert_record "item" (stored_record 0%N sword) empty_database)))
    as E by (vm_compute; reflexivity).
  assert (Forall (λ d : document, is_Some (d !! "_id")) [stored_record 0%N sword])
    as F by (repeat constructor; eexists; vm_compute; reflexivity).
  split; [exact E|]. split; [exact F|].
  exact (list_replaces_native_id unused_repr Items None _ _ _ E F).
Defined.

Lemma list_keeps_record_without_native_id_witness :
  get_documents (listing_collection Characters) (default 100 None)
    (Some legacy_database)
  = (Ok [legacy_record], Some legacy_database)
  ∧ ∃ items,
      get unused_repr Characters None (Some legacy_database)
      = (Ok (BodyItems items), Some legacy_database)
      ∧ length items = length [legacy_record]
      ∧ ∀ (i : nat) (d : document),
          [legacy_record] !! i = Some d → d !! "_id" = None →
          items !! i = Some d
          ∧ (d !! "id" = None → ∀ r, items !! i = Some r → r !! "id" = None).
Proof.
  assert (get_documents (listing_collection Characters) (default 100 None)
            (Some legacy_database)
          = (Ok [legacy_record], Some legacy_database))
    as E by (vm_compute; reflexivity).
  split; [exact E|].
  exact (list_keeps_record_without_native_id unused_repr Characters None _ _ _ E).
Defined.

Lemma create_then_list_witness :
  "Epic" ∈ RARITIES
  ∧ (length (collection "item" empty_database) < Z.to_nat 100)%nat
  ∧ ∃ t db' items,
      post sword (Some empty_database) = (Ok (BodyId t), Some db')
      ∧ http_status (post sword (Some empty_database)).1 = 200
      ∧ t = str_ObjectId (next_id empty_database)
      ∧ t ≠ EmptyString
      ∧ collection (payload_collection sword) db'
        = (collection (payload_collection sword) empty_database
           ++ [<[ "_id" := VObjectId (next_id empty_database) ]> (payload_dump sword)])%list
      ∧ get unused_repr (listing_of sword) None (Some db')
        = (Ok (BodyItems items), Some db')
      ∧ <[ "id" := VStr t ]> (payload_dump sword) ∈ items.
Proof.
  assert (length (collection "item" empty_database) < Z.to_nat 100)%nat
    as L by (vm_compute; lia).
  split; [exact epic_in_RARITIES|]. split; [exact L|].
  exact (create_then_list unused_repr sword empty_database None
           epic_in_RARITIES L).
Defined.

(** The claim C2 without a condition on the limit fails: the sword is
    created on the empty store and the list call with [limit=0] that
    follows returns no record at all. *)
Lemma create_then_list_limit_zero :
  payload_rarity sword ∈ RARITIES
  ∧ ∃ t db' items,
      post sword (Some empty_database) = (Ok (BodyId t), Some db')
      ∧ get unused_repr (listing_of sword) (Some 0) (Some db')
        = (Ok (BodyItems items), Some db')
      ∧ ¬ ∃ r : document, r ∈ items ∧ r !! "id" = Some (VStr t).
Proof.
  split; [exact epic_in_RARITIES|].
  eexists _, _, [].
  split; [exact (store_post sword empty_database epic_in_RARITIES)|].
  split; [by rewrite store_get|].
  intros (r & Hr & _). by apply elem_of_nil in Hr.
Qed.

(** The same with the default limit: with a hundred older records in the
    collection, the list call without [limit] stops before the new
    record. *)
Lemma create_then_list_default_limit :
  ∃ t db' items,
    post sword (Some crowded_database) = (Ok (BodyId t), Some db')
    ∧ get unused_repr (listing_of sword) None (Some db')
      = (Ok (BodyItems items), Some db')
    ∧ length items = 100%nat
    ∧ ¬ ∃ r : document, r ∈ items ∧ r !! "id" = Some (VStr t).
Proof.
  assert (collection "item" crowded_database = hundred_swords) as E
    by apply lookup_total_singleton_eq.
  assert (length hundred_swords = 100%nat) as L
    by (unfold hundred_swords; by rewrite length_fmap, length_seq).
  eexists _, _, _.
  split; [exact (store_post sword crowded_database epic_in_RARITIES)|].
  split; [apply store_get|].
  change (listing_collection (listing_of sword)) with "item".
  change (payload_collection sword) with "item".
  change (Z.to_nat (default 100 None)) with 100%nat.
  rewrite collection_insert_record, E.
  rewrite take_app_length' by done.
  split; [by rewrite length_fmap|].
  intros (r & Hr & Hid).
  apply list_elem_of_fmap in Hr as (d & -> & Hd).
  apply list_elem_of_fmap in Hd as (n & -> & Hn).
  apply elem_of_seq in Hn.
  rewrite convert_stored_record, listed_record_id in Hid.
  assert (str_ObjectId (N.of_nat n) = str_ObjectId (next_id crowded_database))
    as Hs by congruence.
  apply str_ObjectId_inj in Hs. simpl in Hs. lia.
Qed.

Lemma tags_round_trip_witness :
  CharacterCreate.tags bard = ["a"; "b"]
  ∧ CharacterCreate.rarity bard ∈ RARITIES
  ∧ ∃ t db' items,
      create_character bard (Some legacy_database) = (Ok (BodyId t), Some db')
      ∧ list_characters unused_repr None (Some db')
        = (Ok (BodyItems items), Some db')
      ∧ (∀ r, items !! length (collection "character" legacy_database) = Some r →
              r !! "id" = Some (VStr t)
              ∧ r !! "tags" = Some (VList ["a"; "b"]))
      ∧ ((length (collection "character" legacy_database)
          < Z.to_nat (default 100%Z None))%nat →
         is_Some (items !! length (collection "character" legacy_database))).
Proof.
  split; [reflexivity|]. split; [exact rare_in_RARITIES|].
  exact (tags_round_trip unused_repr bard legacy_database None
           eq_refl rare_in_RARITIES).
Defined.

Lemma post_creates_a_record_each_time_witness :
  payload_rarity sword ∈ RARITIES
  ∧ ∃ t1 t2 db1 db2 r1 r2,
      post sword (Some empty_database) = (Ok (BodyId t1), Some db1)
      ∧ post sword (Some db1) = (Ok (BodyId t2), Some db2)
      ∧ collection (payload_collection sword) db1
        = (collection (payload_collection sword) empty_database ++ [r1])%list
      ∧ collection (payload_collection sword) db2
        = (collection (payload_collection sword) empty_database ++ [r1; r2])%list
      ∧ r1 !! "_id" = Some (VObjectId (next_id empty_database))
      ∧ r2 !! "_id" = Some (VObjectId (N.succ (next_id empty_database)))
      ∧ r1 ≠ r2
      ∧ t1 ≠ t2.
Proof.
  split; [exact epic_in_RARITIES|].
  exact (proj2 (post_creates_a_record_each_time sword empty_database
                  epic_in_RARITIES)).
Defined.

Lemma omitted_tags_default_empty_witness :
  (sword = Character (CharacterCreate.init "Bard" "Rare" None None None None
                        None None None)
   ∨ sword = Item (ItemCreate.init "Sword" "Weapon" "Epic" None None None))
  ∧ payload_rarity sword ∈ RARITIES
  ∧ ∃ t db' stored items,
      post sword (Some empty_database) = (Ok (BodyId t), Some db')
      ∧ last (collection (payload_collection sword) db') = Some stored
      ∧ stored !! "tags" = Some (VList [])
      ∧ get unused_repr (listing_of sword) None (Some db')
        = (Ok (BodyItems items), Some db')
      ∧ (∀ r, items !! length (collection (payload_collection sword) empty_database)
              = Some r →
              r !! "id" = Some (VStr t) ∧ r !! "tags" = Some (VList []))
      ∧ ((length (collection (payload_collection sword) empty_database)
          < Z.to_nat (default 100%Z None))%nat →
         is_Some (items !! length (collection (payload_collection sword)
                                     empty_database))).
Proof.
  split; [right; reflexivity|]. split; [exact epic_in_RARITIES|].
  exact (omitted_tags_default_empty unused_repr sword empty_database None
           "Bard" "Rare" None None None None None None
           "Sword" "Weapon" "Epic" None None
           (or_intror eq_refl) epic_in_RARITIES).
Defined.

Lemma test_database_first_ten_collections_witness :
  import_db working_env = Imported (Some working_db)
  ∧ list_collection_names working_db = inr twelve_names
  ∧ ∃ r,
      test_database working_env = Ok r
      ∧ collections r = take 10 twelve_names
      ∧ length (collections r) = Nat.min (length twelve_names) 10
      ∧ collections r `prefix_of` twelve_names.
Proof.
  split; [reflexivity|]. split; [reflexivity|].
  exact (test_database_first_ten_collections working_env working_db
           twelve_names eq_refl eq_refl).
Defined.

(** * Further properties of the handlers *)

(** ** The conversion of identifiers *)

Section Conversion.

Context (repr_container : value -> string).

(** Converting twice is converting once: a converted record has no
    native field left, so a list of records that went through a list
    endpoint is left alone by a second pass. *)
Theorem convert_id_idempotent (d : document) (docs : list document) :
  convert_id repr_container (convert_id repr_container d)
  = convert_id repr_container d
  ∧ convert_id repr_container <$> (convert_id repr_container <$> docs)
    = convert_id repr_container <$> docs.
Proof.
  assert (∀ x, convert_id repr_container (convert_id repr_container x)
               = convert_id repr_container x) as H.
  { intros x. apply convert_id_absent, convert_id_hides_native. }
  split; [apply H|].
  rewrite <- list_fmap_compose. apply list_fmap_ext. intros _ x _. apply H.
Qed.

(** The fields of a converted record: [id] takes the place of [_id].
    The record keeps its number of fields, unless it had a field [id]
    already: that one is overwritten, and the record is one field
    shorter. *)
Theorem convert_id_fields (d : document) (v : value) :
  d !! "_id" = Some v →
  dom (convert_id repr_container d) = {[ "id" ]} ∪ (dom d ∖ {[ "_id" ]})
  ∧ (d !! "id" = None → size (convert_id repr_container d) = size d)
  ∧ (∀ w, d !! "id" = Some w →
          S (size (convert_id repr_container d)) = size d
          ∧ convert_id repr_container d !! "id"
            = Some (VStr (py_str repr_container v))).
Proof.
  intros Hv. rewrite (convert_id_native _ d v Hv).
  assert (size d = S (size (delete "_id" d))) as Hsz.
  { rewrite (map_size_delete_Some "_id" d) by eauto.
    assert (size d ≠ 0%nat); [|lia].
    intros E. apply map_size_empty_inv in E. subst d.
    by rewrite lookup_empty in Hv. }
  split; [by rewrite dom_insert_L, dom_delete_L|]. split.
  - intros Hid. rewrite map_size_insert_None; [lia|].
    by rewrite lookup_delete_ne.
  - intros w Hw. split; [|apply lookup_insert_eq].
    rewrite map_size_insert_Some; [lia|].
    rewrite lookup_delete_ne by done. eauto.
Qed.

(** Nothing is lost on records as the store makes them: two records with
    an [ObjectId] under [_id] and no field [id] that convert to the same
    record are the same record. *)
Theorem convert_id_injective (d1 d2 : document) (o1 o2 : ObjectId) :
  d1 !! "_id" = Some (VObjectId o1) →
  d2 !! "_id" = Some (VObjectId o2) →
  d1 !! "id" = None →
  d2 !! "id" = None →
  convert_id repr_container d1 = convert_id repr_container d2 →
  d1 = d2.
Proof.
  intros H1 H2 N1 N2 E.
  rewrite (convert_id_native _ d1 _ H1), (convert_id_native _ d2 _ H2) in E.
  simpl in E.
  assert (o1 = o2) as ->.
  { apply (f_equal (λ d : document, d !! "id")) in E.
    rewrite !lookup_insert_eq in E. apply str_ObjectId_inj. congruence. }
  apply map_eq. intros k.
  destruct (decide (k = "_id")) as [->|Hk]; [congruence|].
  destruct (decide (k = "id")) as [->|Hk']; [congruence|].
  apply (f_equal (λ d : document, d !! k)) in E.
  by rewrite !lookup_insert_ne, !lookup_delete_ne in E.
Qed.

End Conversion.

(** ** What a payload dumps *)

(** The value of a dump at one of its keys: the inserts before it are
    for other keys. *)
Ltac dump_lookup :=
  unfold CharacterCreate.model_dump, ItemCreate.model_dump;
  repeat (rewrite lookup_insert_ne by discriminate);
  first [apply lookup_insert_eq | apply lookup_empty].

(** The dump of a payload has the declared fields of its model and no
    other: nine for a character, six for an item.  A field left out of
    the request is there all the same, and neither [_id] nor [id] ever
    is. *)
Theorem model_dump_fields (c : CharacterCreate.t) (i : ItemCreate.t) :
  dom (CharacterCreate.model_dump c)
  = {[ "name"; "rarity"; "nation_code"; "role"; "bio"; "image_url";
       "palette"; "stats"; "tags" ]}
  ∧ dom (ItemCreate.model_dump i)
    = {[ "name"; "type"; "rarity"; "effect"; "image_url"; "tags" ]}
  ∧ size (CharacterCreate.model_dump c) = 9%nat
  ∧ size (ItemCreate.model_dump i) = 6%nat
  ∧ (∀ p : payload, payload_dump p !! "_id" = None
                    ∧ payload_dump p !! "id" = None).
Proof.
  assert (dom (CharacterCreate.model_dump c)
          = {[ "name"; "rarity"; "nation_code"; "role"; "bio"; "image_url";
               "palette"; "stats"; "tags" ]}) as Hc.
  { unfold CharacterCreate.model_dump.
    rewrite !dom_insert_L, dom_empty_L. set_solver. }
  assert (dom (ItemCreate.model_dump i)
          = {[ "name"; "type"; "rarity"; "effect"; "image_url"; "tags" ]}) as Hi.
  { unfold ItemCreate.model_dump.
    rewrite !dom_insert_L, dom_empty_L. set_solver. }
  split; [exact Hc|]. split; [exact Hi|].
  split; [|split].
  - unfold CharacterCreate.model_dump.
    rewrite !map_size_insert_None, map_size_empty; [done|dump_lookup..].
  - unfold ItemCreate.model_dump.
    rewrite !map_size_insert_None, map_size_empty; [done|dump_lookup..].
  - intros p. split; destruct p; simpl; dump_lookup.
Qed.

Lemma dump_opt_inj {A} (f : A -> value) (o1 o2 : option A) :
  (∀ a b, f a = f b → a = b) →
  (∀ a, f a ≠ VNone) →
  dump_opt f o1 = dump_opt f o2 → o1 = o2.
Proof.
  intros Hf Hn E. destruct o1 as [a|], o2 as [b|]; simpl in E.
  - f_equal. by apply Hf.
  - by apply Hn in E.
  - symmetry in E. by apply Hn in E.
  - done.
Qed.

Lemma character_dump_lookups (c : CharacterCreate.t) :
  let d := CharacterCreate.model_dump c in
  d !! "name" = Some (VStr (CharacterCreate.name c))
  ∧ d !! "rarity" = Some (VStr (CharacterCreate.rarity c))
  ∧ d !! "nation_code" = Some (dump_opt VStr (CharacterCreate.nation_code c))
  ∧ d !! "role" = Some (dump_opt VStr (CharacterCreate.role c))
  ∧ d !! "bio" = Some (dump_opt VStr (CharacterCreate.bio c))
  ∧ d !! "image_url" = Some (dump_opt VUrl (CharacterCreate.image_url c))
  ∧ d !! "palette" = Some (dump_opt VStrDict (CharacterCreate.palette c))
  ∧ d !! "stats" = Some (dump_opt VIntDict (CharacterCreate.stats c))
  ∧ d !! "tags" = Some (VList (CharacterCreate.tags c)).
Proof. cbv zeta. repeat split; dump_lookup. Qed.

Lemma item_dump_lookups (i : ItemCreate.t) :
  let d := ItemCreate.model_dump i in
  d !! "name" = Some (VStr (ItemCreate.name i))
  ∧ d !! "type" = Some (VStr (ItemCreate.type i))
  ∧ d !! "rarity" = Some (VStr (ItemCreate.rarity i))
  ∧ d !! "effect" = Some (dump_opt VStr (ItemCreate.effect i))
  ∧ d !! "image_url" = Some (dump_opt VUrl (ItemCreate.image_url i))
  ∧ d !! "tags" = Some (VList (ItemCreate.tags i))
  ∧ d !! "role" = None.
Proof. cbv zeta. repeat split; dump_lookup. Qed.

(** The dump loses nothing: two payloads with the same dump are the same
    payload, of the same model, an omitted optional field being told
    from every value it can take. *)
Theorem model_dump_injective (p q : payload) :
  payload_dump p = payload_dump q → p = q.
Proof.
  intros E. destruct p as [c1|i1], q as [c2|i2]; simpl in E.
  - destruct (character_dump_lookups c1)
      as (A1 & A2 & A3 & A4 & A5 & A6 & A7 & A8 & A9).
    destruct (character_dump_lookups c2)
      as (B1 & B2 & B3 & B4 & B5 & B6 & B7 & B8 & B9).
    cbv zeta in *. rewrite E in A1, A2, A3, A4, A5, A6, A7, A8, A9.
    destruct c1 as [n1 r1 nc1 ro1 b1 u1 pa1 s1 t1],
             c2 as [n2 r2 nc2 ro2 b2 u2 pa2 s2 t2]; simpl in *.
    assert (n1 = n2) as -> by congruence.
    assert (r1 = r2) as -> by congruence.
    assert (nc1 = nc2) as ->
      by (apply (dump_opt_inj VStr); [congruence|done|congruence]).
    assert (ro1 = ro2) as ->
      by (apply (dump_opt_inj VStr); [congruence|done|congruence]).
    assert (b1 = b2) as ->
      by (apply (dump_opt_inj VStr); [congruence|done|congruence]).
    assert (u1 = u2) as ->
      by (apply (dump_opt_inj VUrl); [congruence|done|congruence]).
    assert (pa1 = pa2) as ->
      by (apply (dump_opt_inj VStrDict); [congruence|done|congruence]).
    assert (s1 = s2) as ->
      by (apply (dump_opt_inj VIntDict); [congruence|done|congruence]).
    assert (t1 = t2) as -> by congruence.
    reflexivity.
  - destruct (character_dump_lookups c1) as (_ & _ & _ & A4 & _).
    destruct (item_dump_lookups i2) as (_ & _ & _ & _ & _ & _ & B).
    cbv zeta in *. congruence.
  - destruct (character_dump_lookups c2) as (_ & _ & _ & A4 & _).
    destruct (item_dump_lookups i1) as (_ & _ & _ & _ & _ & _ & B).
    cbv zeta in *. congruence.
  - destruct (item_dump_lookups i1) as (A1 & A2 & A3 & A4 & A5 & A6 & _).
    destruct (item_dump_lookups i2) as (B1 & B2 & B3 & B4 & B5 & B6 & _).
    cbv zeta in *. rewrite E in A1, A2, A3, A4, A5, A6.
    destruct i1 as [n1 ty1 r1 e1 u1 t1], i2 as [n2 ty2 r2 e2 u2 t2];
      simpl in *.
    assert (n1 = n2) as -> by congruence.
    assert (ty1 = ty2) as -> by congruence.
    assert (r1 = r2) as -> by congruence.
    assert (e1 = e2) as ->
      by (apply (dump_opt_inj VStr); [congruence|done|congruence]).
    assert (u1 = u2) as ->
      by (apply (dump_opt_inj VUrl); [congruence|done|congruence]).
    assert (t1 = t2) as -> by congruence.
    reflexivity.
Qed.

(** ** Failures of the adapter reach the client *)

Section Propagation.

Context (repr_container : value -> string).
Context {S : Type} `{!DocumentStore S}.

(** No list handler catches anything: an exception of [get_documents]
    leaves the handler as it is, with the state the adapter left, and
    the answer is never a 200; a plain exception is a 500. *)
Theorem list_propagates_failure (l : listing) (limit : option Z)
    (st st' : S) (e : exn) :
  get_documents (listing_collection l) (default 100 limit) st = (Raise e, st') →
  get repr_container l limit st = (Raise e, st')
  ∧ (∀ msg, e = Exception msg →
            http_status (get repr_container l limit st).1 = 500)
  ∧ (∀ c detail, e = HTTPException c detail →
            http_status (get repr_container l limit st).1 = c).
Proof.
  intros E. rewrite get_unfold, E. split; [done|].
  split; [by intros msg ->|by intros c detail ->].
Qed.

(** A payload that passes the rarity check meets the adapter's failure
    unchanged: the create handlers catch nothing either, and return no
    identifier of their own. *)
Theorem create_propagates_failure (p : payload) (st st' : S) (e : exn) :
  payload_rarity p ∈ RARITIES →
  create_document (payload_collection p) (payload_dump p) st = (Raise e, st') →
  post p st = (Raise e, st')
  ∧ (∀ msg, e = Exception msg → http_status (post p st).1 = 500).
Proof.
  intros Hr E. rewrite (post_valid p st Hr), E. split; [done|].
  by intros msg ->.
Qed.

(** The outcome of a create handler tells whether the rarity was
    accepted, provided the adapter itself raises no 400: the handler
    answers 400 exactly when the rarity is outside the fixed set. *)
Theorem create_answers_400_iff_invalid (p : payload) (st : S) :
  (∀ c fields s d s',
      create_document c fields s ≠ (Raise (HTTPException 400 d), s')) →
  (http_status (post p st).1 = 400 ↔ payload_rarity p ∉ RARITIES).
Proof.
  intros Hno. split.
  - intros Hs Hin. rewrite (post_valid p st Hin) in Hs.
    destruct (create_document _ _ st) as [[t|e] st1] eqn:E; simpl in Hs.
    + discriminate.
    + destruct e as [c d|m|m]; simpl in Hs; try discriminate.
      subst c. by apply Hno in E.
  - intros Hout.
    destruct p as [c|i]; simpl in *.
    + unfold create_character.
      by erewrite bind_raise by (by apply validate_character_invalid).
    + unfold create_item.
      by erewrite bind_raise by (by apply validate_item_invalid).
Qed.

End Propagation.

(** ** More on the diagnostic route *)




(** The cut on a text with accents: sixty-three characters in
    sixty-five bytes, cut after the fiftieth character; and a text of
    fifty characters whose last one takes two bytes, kept whole. *)
Lemma str_take_accents :
  str_len long_message = 63%nat
  ∧ String.length long_message = 65%nat
  ∧ str_take 50 long_message
    = "connexion refusée par le serveur localhost:27017 a"
  ∧ str_take 50 "aaaaaaaaaaaaaaaaaaaaaaaaaaaaaaaaaaaaaaaaaaaaaaaaaé"
    = "aaaaaaaaaaaaaaaaaaaaaaaaaaaaaaaaaaaaaaaaaaaaaaaaaé".
Proof. repeat split; vm_compute; reflexivity. Qed.

(** The name of the database never shows: the two fields the handler
    fills from the handle are overwritten from the environment, so that
    the body is the same whatever [db.name] is, and [database_url] is
    never the text it got in between. *)
Theorem test_database_ignores_name (n n' : option string)
    (l : string + list string) (url nm : option string) :
  test_database {| import_db :=
                     Imported (Some {| name := n; list_collection_names := l |});
                   DATABASE_URL := url; DATABASE_NAME := nm |}
  = test_database {| import_db :=
                       Imported (Some {| name := n'; list_collection_names := l |});
                     DATABASE_URL := url; DATABASE_NAME := nm |}
  ∧ ∃ r,
      test_database {| import_db :=
                         Imported (Some {| name := n; list_collection_names := l |});
                       DATABASE_URL := url; DATABASE_NAME := nm |} = Ok r
      ∧ database_url r ≠ Some "✅ Configured"
      ∧ (∀ x, n = Some x → x ≠ "✅ Set" → x ≠ "❌ Not Set" →
              database_name r ≠ Some x).
Proof.
  split.
  - destruct l as [msg|names]; lazy; reflexivity.
  - destruct l as [msg|names], url as [[|c u]|], nm as [[|c' u']|];
      (eexists; split; [lazy; reflexivity|]);
      (split; [lazy; discriminate|]);
      intros x -> H1 H2 E; lazy in E; injection E as <-; congruence.
Qed.

(** [connection_status] tells only whether the import gave a handle: it
    reads "Connected" as soon as there is one, also when the query on it
    fails, and "Not Connected" in every other state. *)
Theorem test_database_connection_status (env : environment) :
  ∃ r,
    test_database env = Ok r
    ∧ connection_status r
      = match import_db env with
        | Imported (Some _) => "Connected"
        | _ => "Not Connected"
        end.
Proof.
  destruct env as [imp url nm].
  destruct imp as [msg|msg|[[n [msg|names]]|]];
    (eexists; split; [lazy; reflexivity|]; lazy; reflexivity).
Qed.

(** Collections are listed only by a working connection: in every other
    state the field [collections] is empty, and it never holds more than
    ten names. *)
Theorem test_database_collections_only_when_working (env : environment) :
  ∃ r,
    test_database env = Ok r
    ∧ (length (collections r) <= 10)%nat
    ∧ (database r ≠ "✅ Connected & Working" → collections r = [])
    ∧ (collections r ≠ [] →
       ∃ db names, import_db env = Imported (Some db)
                   ∧ list_collection_names db = inr names
                   ∧ names ≠ []).
Proof.
  destruct env as [imp url nm].
  destruct imp as [msg|msg|[[n [msg|names]]|]];
    (eexists; split; [lazy; reflexivity|]).
  1-3, 5: split; [cbn; lia|]; split; [reflexivity|]; by intros H.
  change (length (take 10 names) <= 10
          ∧ ("✅ Connected & Working" ≠ "✅ Connected & Working" → take 10 names = [])
          ∧ (take 10 names ≠ [] →
             ∃ db names0,
               Imported (Some {| name := n; list_collection_names := inr names |})
               = Imported (Some db)
               ∧ list_collection_names db = inr names0 ∧ names0 ≠ []))%nat.
  split; [rewrite length_take; lia|]. split; [done|].
  intros Hne. eexists _, names. split; [reflexivity|]. split; [reflexivity|].
  intros ->. by apply Hne.
Qed.


(** An environment variable counts as set only when it has a non-empty
    value: a variable set to the empty text is reported like one that is
    not there. *)
Theorem test_database_empty_variable_not_set (env : environment) :
  ∃ r,
    test_database env = Ok r
    ∧ (database_url r = Some "✅ Set"
       ↔ ∃ v, DATABASE_URL env = Some v ∧ v ≠ EmptyString)
    ∧ (database_name r = Some "✅ Set"
       ↔ ∃ v, DATABASE_NAME env = Some v ∧ v ≠ EmptyString)
    ∧ (DATABASE_URL env = Some EmptyString →
       database_url r = Some "❌ Not Set").
Proof.
  assert (∀ o : option string,
            Some (if truthy o then "✅ Set" else "❌ Not Set") = Some "✅ Set"
            ↔ ∃ v, o = Some v ∧ v ≠ EmptyString) as Ht.
  { intros [[|c s]|]; simpl.
    - split; [discriminate|]. by intros (v & [= <-] & Hv).
    - split; [|done]. intros _. by eexists.
    - split; [discriminate|]. by intros (v & ? & _). }
  destruct env as [imp url nm].
  destruct imp as [msg|msg|[[n [msg|names]]|]];
    (eexists; split; [lazy; reflexivity|]);
    (split; [apply Ht|]; split; [apply Ht|]; by intros [= ->]).
Qed.

(** The text the field [database] starts with never reaches the client:
    every path through the handler writes the field again. *)
Theorem test_database_overwrites_initial_status (env : environment) :
  ∃ r,
    test_database env = Ok r
    ∧ database r ≠ database initial_response.
Proof.
  destruct env as [imp url nm].
  destruct imp as [msg|msg|[[n [msg|names]]|]];
    (eexists; split; [lazy; reflexivity|]; lazy; discriminate).
Qed.

(** ** Instances of the further properties *)

Lemma convert_id_fields_witness :
  clashing_record !! "_id" = Some (VObjectId 7%N)
  ∧ dom (convert_id unused_repr clashing_record)
    = {[ "id" ]} ∪ (dom clashing_record ∖ {[ "_id" ]})
  ∧ (clashing_record !! "id" = None →
     size (convert_id unused_repr clashing_record) = size clashing_record)
  ∧ (∀ w, clashing_record !! "id" = Some w →
          S (size (convert_id unused_repr clashing_record)) = size clashing_record
          ∧ convert_id unused_repr clashing_record !! "id"
            = Some (VStr (py_str unused_repr (VObjectId 7%N)))).
Proof.
  assert (clashing_record !! "_id" = Some (VObjectId 7%N)) as H
    by (vm_compute; reflexivity).
  split; [exact H|].
  exact (convert_id_fields unused_repr clashing_record (VObjectId 7%N) H).
Defined.

Lemma convert_id_injective_witness :
  stored_record 0%N sword !! "_id" = Some (VObjectId 0%N)
  ∧ stored_record 0%N sword !! "id" = None
  ∧ convert_id unused_repr (stored_record 0%N sword)
    = convert_id unused_repr (stored_record 0%N sword)
  ∧ stored_record 0%N sword = stored_record 0%N sword.
Proof.
  assert (stored_record 0%N sword !! "_id" = Some (VObjectId 0%N)) as H
    by (vm_compute; reflexivity).
  assert (stored_record 0%N sword !! "id" = None) as N
    by (vm_compute; reflexivity).
  split; [exact H|]. split; [exact N|]. split; [reflexivity|].
  exact (convert_id_injective unused_repr _ _ 0%N 0%N H H N N eq_refl).
Defined.

Lemma model_dump_injective_witness :
  payload_dump sword = payload_dump sword ∧ sword = sword.
Proof.
  split; [reflexivity|].
  exact (model_dump_injective sword sword eq_refl).
Defined.

Lemma list_propagates_failure_witness :
  get_documents (listing_collection Items) (default 100 None) (None : store)
  = (Raise (Exception "Database not available"), None)
  ∧ get unused_repr Items None (None : store)
    = (Raise (Exception "Database not available"), None)
  ∧ (∀ msg, Exception "Database not available" = Exception msg →
            http_status (get unused_repr Items None (None : store)).1 = 500)
  ∧ (∀ c detail, Exception "Database not available" = HTTPException c detail →
            http_status (get unused_repr Items None (None : store)).1 = c).
Proof.
  split; [reflexivity|].
  exact (list_propagates_failure unused_repr Items None (None : store) None
           (Exception "Database not available") eq_refl).
Defined.

Lemma create_propagates_failure_witness :
  payload_rarity sword ∈ RARITIES
  ∧ create_document (payload_collection sword) (payload_dump sword) (None : store)
    = (Raise (Exception "Database not available"), None)
  ∧ post sword (None : store)
    = (Raise (Exception "Database not available"), None)
  ∧ (∀ msg, Exception "Database not available" = Exception msg →
            http_status (post sword (None : store)).1 = 500).
Proof.
  split; [exact epic_in_RARITIES|]. split; [reflexivity|].
  exact (create_propagates_failure sword (None : store) None
           (Exception "Database not available") epic_in_RARITIES eq_refl).
Defined.

Lemma store_never_raises_400 (c : string) (fields : document) (s s' : store)
    (d : string) :
  create_document c fields s ≠ (Raise (HTTPException 400 d), s').
Proof. destruct s; discriminate. Defined.

Lemma create_answers_400_iff_invalid_witness :
  (∀ c fields (s : store) d s',
      create_document c fields s ≠ (Raise (HTTPException 400 d), s'))
  ∧ (http_status (post mythic_sword (Some empty_database)).1 = 400
     ↔ payload_rarity mythic_sword ∉ RARITIES).
Proof.
  split; [intros c fields s d s'; apply store_never_raises_400|].
  exact (create_answers_400_iff_invalid mythic_sword (Some empty_database)
           (λ c fields s d s', store_never_raises_400 c fields s s' d)).
Defined.

